(** * LCD 1602 over a PCF8574T I2C bridge: the driver of [lcd_1602_i2c.cpp]

    A shallow embedding of class [Lcd] and the properties of the byte
    traffic it puts on the I2C bus.

    - C integers are [Z] with the conversions written out ([to_uint8],
      [to_int]); the bit operators are [Z.land], [Z.lor], [Z.lnot],
      [Z.shiftl].
    - The two SDK primitives the class calls, [i2c_write_blocking] and
      [sleep_ms], are recorded as events; a method is a computation in a
      small state-and-log monad [Driver] over the object's only field,
      [peripheralAddr]. *)

From Stdlib Require Import ZArith List Bool Lia String Ascii.
Import ListNotations.
Local Open Scope Z_scope.

(** ** C integer types *)

Module CInt.

(** The values of [uint8_t]. *)
Definition is_uint8 (x : Z) : Prop := 0 <= x < 256.

(** Conversion to [uint8_t]: reduction modulo 2^8. *)
Definition to_uint8 (x : Z) : Z := x mod 256.

(** The values of [int] (32 bits on the RP2040). *)
Definition is_int (x : Z) : Prop := - 2 ^ 31 <= x < 2 ^ 31.

(** The result of [int] arithmetic, two's complement wrap-around.  An
    overflowing signed addition has no defined result in C++; the Cortex-M0+
    wraps, and every use below converts the sum to [uint8_t] at once, which
    makes the choice invisible (lemma [to_uint8_to_int]). *)
Definition to_int (x : Z) : Z := (x + 2 ^ 31) mod 2 ^ 32 - 2 ^ 31.

End CInt.
Export CInt.

(** ** Events and the driver monad *)

(** What the driver does to the outside world.
    [I2cWrite addr data nostop] is one call
    [i2c_write_blocking(i2c_default, addr, src, len, nostop)], with [data] the
    [len] bytes read from [src]; [SleepMs n] is one call [sleep_ms(n)]. *)
Inductive event : Type :=
| I2cWrite (addr : Z) (data : list Z) (nostop : bool)
| SleepMs (ms : Z).

(** The object: [int peripheralAddr] is the only data member. *)
Record Lcd : Type := mkLcd { peripheralAddr : Z }.

(** A method body: reads and may update the object, logs events in order. *)
Definition Driver (A : Type) : Type := Lcd -> A * Lcd * list event.

Definition ret {A} (a : A) : Driver A := fun this => (a, this, []).

Definition bind {A B} (m : Driver A) (k : A -> Driver B) : Driver B :=
  fun this =>
    let '(a, this1, t1) := m this in
    let '(b, this2, t2) := k a this1 in
    (b, this2, t1 ++ t2).

Definition emit (e : event) : Driver unit := fun this => (tt, this, [e]).

Definition get_peripheralAddr : Driver Z :=
  fun this => (peripheralAddr this, this, []).

Declare Scope driver_scope.
Delimit Scope driver_scope with driver.
Notation "x <- m ;; k" := (bind m (fun x => k))
  (at level 61, m at next level, right associativity) : driver_scope.
Notation "m ;; k" := (bind m (fun _ => k))
  (at level 61, right associativity) : driver_scope.
Local Open Scope driver_scope.

(** Observations of a run. *)
Definition run {A} (m : Driver A) (this : Lcd) : A * Lcd * list event := m this.
Definition trace {A} (m : Driver A) (this : Lcd) : list event := snd (m this).
Definition final {A} (m : Driver A) (this : Lcd) : Lcd := snd (fst (m this)).

(** ** SDK primitives *)

(** [i2c_write_blocking(i2c_default, addr, src, len, nostop)].  [src] is the
    memory at the pointer; the [int] it returns is dropped at both call
    sites, so the model returns nothing. *)
Definition i2c_write_blocking (addr : Z) (src : list Z) (len : nat)
    (nostop : bool) : Driver unit :=
  emit (I2cWrite addr (firstn len src) nostop).

Definition sleep_ms (ms : Z) : Driver unit := emit (SleepMs ms).

(** ** class Lcd *)

(** [void sendByte(uint8_t val)] *)
Definition sendByte (val : Z) : Driver unit :=
  let backlight := 0x08 in
  let enable := 0x04 in
  let noStop := true in
  let oneByte := 1%nat in
  let val_enabled := to_uint8 (Z.lor (Z.lor val backlight) enable) in
  addr <- get_peripheralAddr ;;
  i2c_write_blocking addr [val_enabled] oneByte noStop ;;
  let val_disabled := to_uint8 (Z.lor (Z.land val (Z.lnot enable)) backlight) in
  addr <- get_peripheralAddr ;;
  i2c_write_blocking addr [val_disabled] oneByte noStop.

(** [void sendCommand(uint8_t val)] *)
Definition sendCommand (val : Z) : Driver unit :=
  let cmdRegister := 0x00 in
  let high := to_uint8 (Z.lor (Z.land val 0xF0) cmdRegister) in
  let low := to_uint8 (Z.lor (Z.land (Z.shiftl val 4) 0xF0) cmdRegister) in
  sendByte high ;;
  sendByte low ;;
  sleep_ms 2.

(** [void sendData(uint8_t val)] *)
Definition sendData (val : Z) : Driver unit :=
  let dataRegister := 0x01 in
  let high := to_uint8 (Z.lor (Z.land val 0xF0) dataRegister) in
  sendByte high ;;
  let low := to_uint8 (Z.lor (Z.land (Z.shiftl val 4) 0xF0) dataRegister) in
  sendByte low.

(** [void print(const char* s)]: while the [char] at [s] is not zero, pass it
    to [sendData] and advance [s].
    [s] is the [char] array from the pointer on.  The loop stops at the first
    zero; the end of the list stands for the end of the array, which a
    terminated string never reaches.  The [char] is converted to the
    [uint8_t] parameter of [sendData]. *)
Fixpoint print (s : list Z) : Driver unit :=
  match s with
  | [] => ret tt
  | c :: s' => if c =? 0 then ret tt else sendData (to_uint8 c) ;; print s'
  end.

(** [void setCursor(const int row, const int column)].  The sums are [int]
    sums, converted to the [uint8_t] parameter of [sendCommand]; a [switch]
    without [default] does nothing on the other rows. *)
Definition setCursor (row column : Z) : Driver unit :=
  let ROW_1 := 0x08 in
  let ROW_2 := 0xC0 in
  match row with
  | 0 => sendCommand (to_uint8 (to_int (ROW_1 + column)))
  | 1 => sendCommand (to_uint8 (to_int (ROW_2 + column)))
  | _ => ret tt
  end.

(** [void clear()] *)
Definition clear : Driver unit :=
  let CLEAR_DISPLAY := 0x01 in
  sendCommand (to_uint8 CLEAR_DISPLAY).

(** [void init()] *)
Definition init : Driver unit :=
  sleep_ms 15 ;;
  let returnHomeInst := 0x02 in
  let functionSetInst := 0x20 in
  let fourBitDL := 0x00 in
  let eightBitDL := 0x10 in
  let twoLineDisplay := 0x08 in
  let oneLineDisplay := 0x00 in
  let fiveByTenDots := 0x04 in
  let fiveByEightDots := 0x00 in
  let displayInst := 0x08 in
  let displayOn := 0x04 in
  let displayOff := 0x00 in
  let cursorOn := 0x02 in
  let cursorOff := 0x00 in
  let blinkOn := 0x01 in
  let blinkOff := 0x00 in
  let entryModeInst := 0x04 in
  let directionIncrement := 0x02 in
  let directionDecrement := 0x00 in
  let displayShiftOn := 0x01 in
  let displayShiftOff := 0x00 in
  let clearDisplayInst := 0x01 in
  sendCommand returnHomeInst ;;
  sendCommand (to_uint8 (Z.lor (Z.lor (Z.lor functionSetInst fourBitDL)
                                      twoLineDisplay) fiveByEightDots)) ;;
  sendCommand (to_uint8 (Z.lor (Z.lor (Z.lor displayInst displayOn)
                                      cursorOff) blinkOff)) ;;
  sendCommand (to_uint8 (Z.lor (Z.lor entryModeInst directionIncrement)
                               displayShiftOff)) ;;
  sendCommand clearDisplayInst.

(** ** Reading the bus

    The vocabulary the properties are stated in.  The bit positions are the
    masks of the source: register select [0x01], enable [0x04], backlight
    [0x08], data lines [0xF0]. *)

Definition high_nibble (b : Z) : Z := Z.land b 0xF0.
Definition rs_bit (b : Z) : bool := Z.testbit b 0.
Definition enable_bit (b : Z) : bool := Z.testbit b 2.
Definition backlight_bit (b : Z) : bool := Z.testbit b 3.

(** One frame write: what [sendByte f] puts on the bus. *)
Definition frame_write (this : Lcd) (f : Z) : list event :=
  trace (sendByte f) this.

(** The bytes written to the bus, in order, and the delays requested. *)
Definition bus_bytes (t : list event) : list Z :=
  flat_map (fun e => match e with I2cWrite _ d _ => d | SleepMs _ => [] end) t.

Definition delays (t : list event) : list Z :=
  flat_map (fun e => match e with I2cWrite _ _ _ => [] | SleepMs ms => [ms] end) t.

(** The controller takes the lines over when enable falls: of a sequence of
    bus bytes it keeps each byte with enable low that follows a byte with
    enable high.  [e] is the level of the enable line before the sequence. *)
Fixpoint latched_from (e : bool) (bs : list Z) : list Z :=
  match bs with
  | [] => []
  | b :: bs' =>
      (if e && negb (enable_bit b) then [b] else []) ++
      latched_from (enable_bit b) bs'
  end.

Definition latched (t : list event) : list Z := latched_from false (bus_bytes t).

(** Decoding: the high nibble of the first frame gives bits 7-4, the high
    nibble of the second frame bits 3-0. *)
Definition recombine (f1 f2 : Z) : Z :=
  Z.lor (high_nibble f1) (Z.shiftr (high_nibble f2) 4).

(** The bytes the controller receives in 4-bit mode, each with the register
    it goes to ([false]: instruction register, [true]: data register). *)
Fixpoint pair_up (fs : list Z) : list (bool * Z) :=
  match fs with
  | f1 :: f2 :: rest => (rs_bit f1, recombine f1 f2) :: pair_up rest
  | _ => []
  end.

Definition received (t : list event) : list (bool * Z) := pair_up (latched t).

(** The instructions among them. *)
Definition commands (t : list event) : list Z :=
  map snd (filter (fun p => negb (fst p)) (received t)).

(** A string literal as the [char] array it denotes: the character codes,
    then the terminating zero. *)
Definition chars_of_string (s : string) : list Z :=
  map (fun a => Z.of_N (N_of_ascii a)) (list_ascii_of_string s).

Definition cstr (chars : list Z) : list Z := chars ++ [0].

(** The object before the constructor body runs: the default member
    initializer, [int peripheralAddr = 0x27]. *)
Definition default_lcd : Lcd := mkLcd 0x27.

(** All [uint8_t] values, for properties checked value by value. *)
Definition all_uint8 : list Z := map Z.of_nat (seq 0 256).

(** ** The constructor and main *)

(** The SDK calls of the constructor, beside the two of the methods. *)
Inductive gpio_function : Type := GPIO_FUNC_I2C.

Inductive sdk_call : Type :=
| I2cInit (baudrate : Z)
| GpioSetFunction (gpio : Z) (fn : gpio_function)
| GpioPullUp (gpio : Z)
| DriverEvent (e : event).

Definition driver_events (t : list sdk_call) : list event :=
  flat_map (fun c => match c with DriverEvent e => [e] | _ => [] end) t.

(** [Lcd(uint8_t addr)].  The pin numbers are the board macros
    [PICO_DEFAULT_I2C_SDA_PIN] and [PICO_DEFAULT_I2C_SCL_PIN] of the SDK,
    taken as parameters.  The member initializer runs first, then the body:
    the assignment, the bus set-up, [init()]. *)
Definition Lcd_ctor (SDA_PIN SCL_PIN : Z) (addr : Z) : Lcd * list sdk_call :=
  let this := default_lcd in
  let this := mkLcd addr in
  let setup := [I2cInit 1000000;
                GpioSetFunction SDA_PIN GPIO_FUNC_I2C;
                GpioSetFunction SCL_PIN GPIO_FUNC_I2C;
                GpioPullUp SDA_PIN;
                GpioPullUp SCL_PIN] in
  let '(_, this, t) := run init this in
  (this, setup ++ map DriverEvent t).

(** The body of the loop of [main], on the object [display]. *)
Definition main_loop_body : Driver unit :=
  print (cstr (chars_of_string "  Hello World!")) ;;
  sleep_ms 1000 ;;
  setCursor 1 0 ;;
  print (cstr (chars_of_string "Rasperry Pi Pico")) ;;
  sleep_ms 2000 ;;
  init.

(** [n] turns of a loop. *)
Fixpoint loop (n : nat) (body : Driver unit) : Driver unit :=
  match n with
  | O => ret tt
  | S n' => body ;; loop n' body
  end.

(** [int main()]: the loop never exits, so [main] has no result; this is
    what it has done when the [n]-th turn of the loop ends. *)
Definition main_upto (SDA_PIN SCL_PIN : Z) (n : nat) : list sdk_call :=
  let '(display, t) := Lcd_ctor SDA_PIN SCL_PIN (to_uint8 0x27) in
  t ++ map DriverEvent (trace (loop n main_loop_body) display).

(** ** Calls from outside

    A caller's straight-line use of the class: any sequence of calls of its
    methods.  An argument of a [uint8_t] parameter is converted at the call. *)
Inductive api_call : Type :=
| CallInit
| CallPrint (s : list Z)
| CallSetCursor (row column : Z)
| CallClear
| CallSendCommand (val : Z)
| CallSendData (val : Z).

Definition exec (c : api_call) : Driver unit :=
  match c with
  | CallInit => init
  | CallPrint s => print s
  | CallSetCursor row column => setCursor row column
  | CallClear => clear
  | CallSendCommand val => sendCommand (to_uint8 val)
  | CallSendData val => sendData (to_uint8 val)
  end.

Fixpoint exec_all (cs : list api_call) : Driver unit :=
  match cs with
  | [] => ret tt
  | c :: cs' => exec c ;; exec_all cs'
  end.

(** The characters of an array before its first zero. *)
Fixpoint until_nul (s : list Z) : list Z :=
  match s with
  | [] => []
  | c :: s' => if c =? 0 then [] else c :: until_nul s'
  end.

(** What a call is expected to deliver to the controller: the bytes, each
    with its register. *)
Definition delivers (c : api_call) : list (bool * Z) :=
  match c with
  | CallInit =>
      [(false, 0x02); (false, 0x28); (false, 0x0C); (false, 0x06); (false, 0x01)]
  | CallPrint s => map (fun c => (true, c mod 256)) (until_nul s)
  | CallSetCursor 0 column => [(false, (0x08 + column) mod 256)]
  | CallSetCursor 1 column => [(false, (0xC0 + column) mod 256)]
  | CallSetCursor _ _ => []
  | CallClear => [(false, 0x01)]
  | CallSendCommand val => [(false, val mod 256)]
  | CallSendData val => [(true, val mod 256)]
  end.

(** A trace made of whole byte transfers and delays, with the bytes it
    transfers: the shape of all the traffic of the methods above. *)
Inductive transfers (this : Lcd) : list event -> list (bool * Z) -> Prop :=
| transfers_nil : transfers this [] []
| transfers_command v t l :
    is_uint8 v -> transfers this t l ->
    transfers this (trace (sendCommand v) this ++ t) ((false, v) :: l)
| transfers_data v t l :
    is_uint8 v -> transfers this t l ->
    transfers this (trace (sendData v) this ++ t) ((true, v) :: l)
| transfers_sleep ms t l :
    transfers this t l -> transfers this (SleepMs ms :: t) l.

(** A bus write as the driver makes it: one byte, to the object's address,
    bus held open; the low nibble of the byte is backlight, enable or not,
    register select or not, and nothing on bit 1. *)
Definition driver_write (this : Lcd) (e : event) : Prop :=
  match e with
  | I2cWrite addr data nostop =>
      addr = peripheralAddr this /\ nostop = true /\
      exists b, data = [b] /\ is_uint8 b /\
                In (Z.land b 0x0F) [0x08; 0x09; 0x0C; 0x0D]
  | SleepMs _ => True
  end.

(** The time a trace asks to sleep, in milliseconds. *)
Definition total_delay (t : list event) : Z := fold_right Z.add 0 (delays t).

Definition is_init (c : api_call) : bool :=
  match c with CallInit => true | _ => false end.

(** The instructions among bytes delivered. *)
Definition instructions (l : list (bool * Z)) : list Z :=
  map snd (filter (fun p => negb (fst p)) l).

(** ** Conversions *)

Lemma to_uint8_range (x : Z) : is_uint8 (to_uint8 x).
Proof. unfold is_uint8, to_uint8. apply Z.mod_pos_bound. lia. Qed.

Lemma to_uint8_id (x : Z) : is_uint8 x -> to_uint8 x = x.
Proof. unfold is_uint8, to_uint8. intros H. now apply Z.mod_small. Qed.

Lemma to_int_id (x : Z) : is_int x -> to_int x = x.
Proof.
  unfold is_int, to_int. intros H.
  rewrite Z.mod_small; lia.
Qed.

(** Wrapping an [int] sum first does not change its low byte. *)
Lemma to_uint8_to_int (x : Z) : to_uint8 (to_int x) = to_uint8 x.
Proof.
  unfold to_uint8, to_int.
  change (2 ^ 31) with 2147483648. change (2 ^ 32) with 4294967296.
  rewrite (Z.mod_eq (x + 2147483648) 4294967296) by lia.
  set (q := (x + 2147483648) / 4294967296).
  replace (x + 2147483648 - 4294967296 * q - 2147483648)
    with (x + (- (16777216 * q)) * 256) by lia.
  apply Z.mod_add. lia.
Qed.

(** A property of bytes that a boolean test decides holds of every byte once
    the test passes on the 256 values. *)
Lemma uint8_forall (p : Z -> bool) :
  forallb p all_uint8 = true -> forall v, is_uint8 v -> p v = true.
Proof.
  intros Hall v Hv.
  rewrite forallb_forall in Hall. apply Hall.
  unfold all_uint8. apply in_map_iff.
  exists (Z.to_nat v). unfold is_uint8 in Hv. split; [lia|].
  apply in_seq. lia.
Qed.

Lemma uint8_ext (f g : Z -> Z) :
  forallb (fun v => f v =? g v) all_uint8 = true ->
  forall v, is_uint8 v -> f v = g v.
Proof.
  intros Hall v Hv. apply Z.eqb_eq.
  exact (uint8_forall (fun v => f v =? g v) Hall v Hv).
Qed.

Lemma uint8_closed (f : Z -> Z) :
  forallb (fun v => (0 <=? f v) && (f v <? 256)) all_uint8 = true ->
  forall v, is_uint8 v -> is_uint8 (f v).
Proof.
  intros Hall v Hv.
  apply (uint8_forall _ Hall) in Hv.
  apply andb_true_iff in Hv. destruct Hv as [Hlo Hhi].
  unfold is_uint8. split; [now apply Z.leb_le | now apply Z.ltb_lt].
Qed.

(** ** Bit-level facts *)

Lemma high_nibble_to_uint8 (x : Z) : high_nibble (to_uint8 x) = high_nibble x.
Proof.
  unfold high_nibble, to_uint8.
  change 256 with (2 ^ 8). rewrite <- Z.land_ones by lia.
  rewrite <- Z.land_assoc. reflexivity.
Qed.

Lemma testbit_to_uint8 (x i : Z) :
  0 <= i < 8 -> Z.testbit (to_uint8 x) i = Z.testbit x i.
Proof.
  intros Hi. unfold to_uint8. change 256 with (2 ^ 8).
  apply Z.mod_pow2_bits_low. lia.
Qed.

Lemma high_nibble_range (x : Z) : is_uint8 (high_nibble x).
Proof.
  rewrite <- high_nibble_to_uint8.
  apply (uint8_closed high_nibble); [reflexivity | apply to_uint8_range].
Qed.

Lemma high_nibble_idem (x : Z) : high_nibble (high_nibble x) = high_nibble x.
Proof. unfold high_nibble. rewrite <- Z.land_assoc. reflexivity. Qed.

Lemma rs_bit_high_nibble (x : Z) : rs_bit (high_nibble x) = false.
Proof.
  unfold rs_bit, high_nibble. rewrite Z.land_spec.
  apply andb_false_r.
Qed.

(** The two bytes of a frame write. *)
Lemma sendByte_run (this : Lcd) (val : Z) :
  run (sendByte val) this =
    (tt, this,
     [I2cWrite (peripheralAddr this)
        [to_uint8 (Z.lor (Z.lor val 0x08) 0x04)] true;
      I2cWrite (peripheralAddr this)
        [to_uint8 (Z.lor (Z.land val (Z.lnot 0x04)) 0x08)] true]).
Proof. reflexivity. Qed.

Lemma sendCommand_run (this : Lcd) (val : Z) :
  run (sendCommand val) this =
    (tt, this,
     frame_write this (to_uint8 (Z.lor (Z.land val 0xF0) 0x00)) ++
     frame_write this (to_uint8 (Z.lor (Z.land (Z.shiftl val 4) 0xF0) 0x00)) ++
     [SleepMs 2]).
Proof. reflexivity. Qed.

Lemma sendData_run (this : Lcd) (val : Z) :
  run (sendData val) this =
    (tt, this,
     frame_write this (to_uint8 (Z.lor (Z.land val 0xF0) 0x01)) ++
     frame_write this (to_uint8 (Z.lor (Z.land (Z.shiftl val 4) 0xF0) 0x01))).
Proof. reflexivity. Qed.

(** The frames of a command and of a data byte, as bytes. *)
Lemma command_frame (x : Z) :
  to_uint8 (Z.lor (Z.land x 0xF0) 0x00) = high_nibble x.
Proof.
  rewrite Z.lor_0_r. apply to_uint8_id. apply high_nibble_range.
Qed.

Lemma data_frame (x : Z) :
  to_uint8 (Z.lor (Z.land x 0xF0) 0x01) = Z.lor (high_nibble x) 0x01.
Proof.
  apply to_uint8_id. fold (high_nibble x).
  rewrite <- high_nibble_to_uint8.
  apply (uint8_closed (fun v => Z.lor (high_nibble v) 1));
    [reflexivity | apply to_uint8_range].
Qed.

(** The enable-asserted and the enable-deasserted byte of a frame. *)
Section FrameBytes.

Variable val : Z.

Let val_enabled := to_uint8 (Z.lor (Z.lor val 0x08) 0x04).
Let val_disabled := to_uint8 (Z.lor (Z.land val (Z.lnot 0x04)) 0x08).

Lemma enabled_enable_bit : enable_bit val_enabled = true.
Proof.
  unfold enable_bit, val_enabled.
  rewrite testbit_to_uint8, !Z.lor_spec by lia.
  apply orb_true_r.
Qed.

Lemma disabled_enable_bit : enable_bit val_disabled = false.
Proof.
  unfold enable_bit, val_disabled.
  rewrite testbit_to_uint8, Z.lor_spec, Z.land_spec by lia.
  change (Z.testbit (Z.lnot 4) 2) with false.
  now rewrite andb_false_r.
Qed.

Lemma enabled_backlight_bit : backlight_bit val_enabled = true.
Proof.
  unfold backlight_bit, val_enabled.
  rewrite testbit_to_uint8, !Z.lor_spec by lia.
  change (Z.testbit 8 3) with true.
  now rewrite orb_true_r.
Qed.

Lemma disabled_backlight_bit : backlight_bit val_disabled = true.
Proof.
  unfold backlight_bit, val_disabled.
  rewrite testbit_to_uint8, Z.lor_spec by lia.
  apply orb_true_r.
Qed.

Lemma enabled_high_nibble : high_nibble val_enabled = high_nibble val.
Proof.
  unfold val_enabled. rewrite high_nibble_to_uint8. unfold high_nibble.
  rewrite !Z.land_lor_distr_l.
  change (Z.land 8 240) with 0. change (Z.land 4 240) with 0.
  now rewrite !Z.lor_0_r.
Qed.

Lemma disabled_high_nibble : high_nibble val_disabled = high_nibble val.
Proof.
  unfold val_disabled. rewrite high_nibble_to_uint8. unfold high_nibble.
  rewrite Z.land_lor_distr_l, <- Z.land_assoc.
  change (Z.land 8 240) with 0. change (Z.land (Z.lnot 4) 240) with 240.
  apply Z.lor_0_r.
Qed.

Lemma enabled_rs_bit : rs_bit val_enabled = rs_bit val.
Proof.
  unfold rs_bit, val_enabled.
  rewrite testbit_to_uint8, !Z.lor_spec by lia.
  change (Z.testbit 8 0) with false. change (Z.testbit 4 0) with false.
  now rewrite !orb_false_r.
Qed.

Lemma disabled_rs_bit : rs_bit val_disabled = rs_bit val.
Proof.
  unfold rs_bit, val_disabled.
  rewrite testbit_to_uint8, Z.lor_spec, Z.land_spec by lia.
  change (Z.testbit (Z.lnot 4) 0) with true. change (Z.testbit 8 0) with false.
  now rewrite orb_false_r, andb_true_r.
Qed.

End FrameBytes.

(** ** What the controller latches *)

Lemma bus_bytes_app (t1 t2 : list event) :
  bus_bytes (t1 ++ t2) = bus_bytes t1 ++ bus_bytes t2.
Proof. unfold bus_bytes. apply flat_map_app. Qed.

Lemma delays_app (t1 t2 : list event) :
  delays (t1 ++ t2) = delays t1 ++ delays t2.
Proof. unfold delays. apply flat_map_app. Qed.

Lemma bus_bytes_frame_write (this : Lcd) (f : Z) :
  bus_bytes (frame_write this f) =
    [to_uint8 (Z.lor (Z.lor f 0x08) 0x04);
     to_uint8 (Z.lor (Z.land f (Z.lnot 0x04)) 0x08)].
Proof. reflexivity. Qed.

Lemma delays_frame_write (this : Lcd) (f : Z) : delays (frame_write this f) = [].
Proof. reflexivity. Qed.

(** A frame write makes the controller latch one byte, the enable-deasserted
    one, whatever the enable line was before, and leaves the line low. *)
Lemma latched_from_frame (e : bool) (this : Lcd) (f : Z) (rest : list Z) :
  latched_from e (bus_bytes (frame_write this f) ++ rest) =
    to_uint8 (Z.lor (Z.land f (Z.lnot 0x04)) 0x08) :: latched_from false rest.
Proof.
  rewrite bus_bytes_frame_write. cbn [app latched_from].
  rewrite enabled_enable_bit, disabled_enable_bit.
  now rewrite andb_false_r.
Qed.

(** A delay is invisible to the controller. *)
Lemma latched_from_sleep (e : bool) (ms : Z) (t : list event) :
  latched_from e (bus_bytes (SleepMs ms :: t)) = latched_from e (bus_bytes t).
Proof. reflexivity. Qed.

Lemma pair_up_frames (f1 f2 : Z) (rest : list Z) :
  pair_up (to_uint8 (Z.lor (Z.land f1 (Z.lnot 0x04)) 0x08) ::
           to_uint8 (Z.lor (Z.land f2 (Z.lnot 0x04)) 0x08) :: rest) =
    (rs_bit f1, recombine f1 f2) :: pair_up rest.
Proof.
  cbn [pair_up]. unfold recombine.
  now rewrite !disabled_high_nibble, disabled_rs_bit.
Qed.

(** Splitting a byte in two nibble frames loses nothing. *)
Lemma recombine_nibbles (v : Z) :
  is_uint8 v -> recombine (high_nibble v) (high_nibble (Z.shiftl v 4)) = v.
Proof.
  revert v.
  apply (uint8_ext
           (fun v => recombine (high_nibble v) (high_nibble (Z.shiftl v 4)))
           (fun v => v)).
  vm_compute. reflexivity.
Qed.

Lemma recombine_lor_rs (f1 f2 : Z) :
  recombine (Z.lor (high_nibble f1) 0x01) (Z.lor (high_nibble f2) 0x01) =
    recombine (high_nibble f1) (high_nibble f2).
Proof.
  unfold recombine, high_nibble.
  rewrite !Z.land_lor_distr_l.
  change (Z.land 1 240) with 0. now rewrite !Z.lor_0_r.
Qed.

(** ** sendByte *)

(** C3. For every byte passed to [sendByte], exactly two bus writes are
    performed: the first byte has the enable bit set, the second has it
    cleared, the backlight bit is set in both, the four data bits and the
    register-select bit of the input are kept in both, and both writes are
    issued with the no-stop flag. *)
Theorem sendByte_enable_pulse (this : Lcd) (val : Z) :
  is_uint8 val ->
  exists b1 b2,
    run (sendByte val) this =
      (tt, this, [I2cWrite (peripheralAddr this) [b1] true;
                  I2cWrite (peripheralAddr this) [b2] true]) /\
    (is_uint8 b1 /\ is_uint8 b2) /\
    (enable_bit b1 = true /\ enable_bit b2 = false) /\
    (backlight_bit b1 = true /\ backlight_bit b2 = true) /\
    (high_nibble b1 = high_nibble val /\ high_nibble b2 = high_nibble val) /\
    (rs_bit b1 = rs_bit val /\ rs_bit b2 = rs_bit val).
Proof.
  intros _.
  exists (to_uint8 (Z.lor (Z.lor val 0x08) 0x04)),
         (to_uint8 (Z.lor (Z.land val (Z.lnot 0x04)) 0x08)).
  split; [apply sendByte_run|].
  repeat split.
  - apply to_uint8_range.
  - apply to_uint8_range.
  - apply to_uint8_range.
  - apply to_uint8_range.
  - apply enabled_enable_bit.
  - apply disabled_enable_bit.
  - apply enabled_backlight_bit.
  - apply disabled_backlight_bit.
  - apply enabled_high_nibble.
  - apply disabled_high_nibble.
  - apply enabled_rs_bit.
  - apply disabled_rs_bit.
Qed.

Lemma sendByte_enable_pulse_witness :
  is_uint8 0x41 /\
  exists b1 b2,
    run (sendByte 0x41) default_lcd =
      (tt, default_lcd, [I2cWrite 0x27 [b1] true; I2cWrite 0x27 [b2] true]) /\
    (enable_bit b1 = true /\ enable_bit b2 = false) /\
    (backlight_bit b1 = true /\ backlight_bit b2 = true) /\
    (high_nibble b1 = 0x40 /\ high_nibble b2 = 0x40) /\
    (rs_bit b1 = true /\ rs_bit b2 = true).
Proof.
  assert (Hb : is_uint8 0x41) by (unfold is_uint8; lia).
  split; [exact Hb|].
  destruct (sendByte_enable_pulse default_lcd 0x41 Hb)
    as (b1 & b2 & Hrun & _ & He & Hl & Hn & Hr).
  exists b1, b2. repeat split;
    first [exact Hrun | apply He | apply Hl | apply Hn | apply Hr].
Defined.

(** ** sendCommand and sendData *)

(** C1. For every byte [v], [sendCommand v] produces exactly two frame
    writes, the high-nibble frame first, whose high nibbles are the high
    nibble of [v] and the high nibble of [v << 4], with the register-select
    bit cleared in both, followed by one delay of 2 ms. *)
Theorem sendCommand_frames (this : Lcd) (v : Z) :
  is_uint8 v ->
  exists f1 f2,
    run (sendCommand v) this =
      (tt, this, frame_write this f1 ++ frame_write this f2 ++ [SleepMs 2]) /\
    (high_nibble f1 = high_nibble v /\
     high_nibble f2 = high_nibble (Z.shiftl v 4)) /\
    (rs_bit f1 = false /\ rs_bit f2 = false) /\
    map (fun b => (high_nibble b, rs_bit b))
        (latched (trace (sendCommand v) this)) =
      [(high_nibble v, false); (high_nibble (Z.shiftl v 4), false)] /\
    delays (trace (sendCommand v) this) = [2].
Proof.
  intros _.
  exists (high_nibble v), (high_nibble (Z.shiftl v 4)).
  assert (Hrun : run (sendCommand v) this =
            (tt, this, frame_write this (high_nibble v) ++
                       frame_write this (high_nibble (Z.shiftl v 4)) ++
                       [SleepMs 2]))
    by (rewrite sendCommand_run, !command_frame; reflexivity).
  split; [exact Hrun|].
  split; [split; apply high_nibble_idem|].
  split; [split; apply rs_bit_high_nibble|].
  unfold trace, latched. unfold run in Hrun. rewrite Hrun. cbn [snd].
  split.
  - rewrite !bus_bytes_app, !latched_from_frame. cbn [bus_bytes flat_map app latched_from map].
    now rewrite !disabled_high_nibble, !disabled_rs_bit, !high_nibble_idem,
      !rs_bit_high_nibble.
  - now rewrite !delays_app, !delays_frame_write.
Qed.

Lemma sendCommand_frames_witness :
  is_uint8 0x28 /\
  map (fun b => (high_nibble b, rs_bit b))
      (latched (trace (sendCommand 0x28) default_lcd)) =
    [(0x20, false); (0x80, false)] /\
  delays (trace (sendCommand 0x28) default_lcd) = [2].
Proof.
  assert (Hb : is_uint8 0x28) by (unfold is_uint8; lia).
  split; [exact Hb|].
  destruct (sendCommand_frames default_lcd 0x28 Hb)
    as (f1 & f2 & _ & _ & _ & Hl & Hd).
  split; [exact Hl | exact Hd].
Defined.

(** C2. For every byte [v], [sendData v] produces exactly two frame writes
    with the nibble splitting of [sendCommand], the register-select bit set
    in both, and no delay. *)
Theorem sendData_frames (this : Lcd) (v : Z) :
  is_uint8 v ->
  exists f1 f2,
    run (sendData v) this =
      (tt, this, frame_write this f1 ++ frame_write this f2) /\
    (high_nibble f1 = high_nibble v /\
     high_nibble f2 = high_nibble (Z.shiftl v 4)) /\
    (rs_bit f1 = true /\ rs_bit f2 = true) /\
    map (fun b => (high_nibble b, rs_bit b))
        (latched (trace (sendData v) this)) =
      [(high_nibble v, true); (high_nibble (Z.shiftl v 4), true)] /\
    delays (trace (sendData v) this) = [].
Proof.
  intros _.
  set (f1 := Z.lor (high_nibble v) 0x01).
  set (f2 := Z.lor (high_nibble (Z.shiftl v 4)) 0x01).
  exists f1, f2.
  assert (Hrun : run (sendData v) this =
            (tt, this, frame_write this f1 ++ frame_write this f2))
    by (rewrite sendData_run, !data_frame; reflexivity).
  assert (Hn : forall x, high_nibble (Z.lor (high_nibble x) 0x01) = high_nibble x).
  { intros x. unfold high_nibble at 1. rewrite Z.land_lor_distr_l.
    change (Z.land 1 240) with 0. rewrite Z.lor_0_r. apply high_nibble_idem. }
  assert (Hr : forall x, rs_bit (Z.lor (high_nibble x) 0x01) = true).
  { intros x. unfold rs_bit. rewrite Z.lor_spec. apply orb_true_r. }
  split; [exact Hrun|].
  split; [split; apply Hn|].
  split; [split; apply Hr|].
  unfold trace, latched. unfold run in Hrun. rewrite Hrun. cbn [snd].
  split.
  - rewrite <- (app_nil_r (frame_write this f2)).
    rewrite !bus_bytes_app, !latched_from_frame.
    cbn [bus_bytes flat_map app latched_from map].
    rewrite !disabled_high_nibble, !disabled_rs_bit.
    unfold f1, f2. now rewrite !Hn, !Hr.
  - now rewrite !delays_app, !delays_frame_write.
Qed.

Lemma sendData_frames_witness :
  is_uint8 0x41 /\
  map (fun b => (high_nibble b, rs_bit b))
      (latched (trace (sendData 0x41) default_lcd)) =
    [(0x40, true); (0x10, true)] /\
  delays (trace (sendData 0x41) default_lcd) = [].
Proof.
  assert (Hb : is_uint8 0x41) by (unfold is_uint8; lia).
  split; [exact Hb|].
  destruct (sendData_frames default_lcd 0x41 Hb)
    as (f1 & f2 & _ & _ & _ & Hl & Hd).
  split; [exact Hl | exact Hd].
Defined.

(** ** Sequencing *)

Lemma run_bind {A B} (m : Driver A) (k : A -> Driver B) (this : Lcd) :
  run (bind m k) this =
    (let '(a, this1, t1) := run m this in
     let '(b, this2, t2) := run (k a) this1 in
     (b, this2, t1 ++ t2)).
Proof. reflexivity. Qed.

(** No method assigns [peripheralAddr]: a run is determined by its trace. *)
Lemma sendCommand_unchanged (this : Lcd) (v : Z) :
  run (sendCommand v) this = (tt, this, trace (sendCommand v) this).
Proof. reflexivity. Qed.

Lemma sendData_unchanged (this : Lcd) (v : Z) :
  run (sendData v) this = (tt, this, trace (sendData v) this).
Proof. reflexivity. Qed.

(** What the controller receives from one command, and from one data byte,
    in front of any further traffic. *)
Lemma received_from_command (e : bool) (this : Lcd) (v : Z) (rest : list event) :
  is_uint8 v ->
  pair_up (latched_from e (bus_bytes (trace (sendCommand v) this ++ rest))) =
    (false, v) :: pair_up (latched_from false (bus_bytes rest)).
Proof.
  intros Hv.
  assert (Ht : trace (sendCommand v) this =
            frame_write this (high_nibble v) ++
            frame_write this (high_nibble (Z.shiftl v 4)) ++ [SleepMs 2]).
  { unfold trace. pose proof (sendCommand_run this v) as Hrun.
    unfold run in Hrun. rewrite Hrun, !command_frame. reflexivity. }
  rewrite Ht, <- !app_assoc, !bus_bytes_app, !latched_from_frame.
  cbn [bus_bytes flat_map app]. fold (bus_bytes rest).
  rewrite pair_up_frames, rs_bit_high_nibble, recombine_nibbles by exact Hv.
  reflexivity.
Qed.

Lemma received_from_data (e : bool) (this : Lcd) (v : Z) (rest : list event) :
  is_uint8 v ->
  pair_up (latched_from e (bus_bytes (trace (sendData v) this ++ rest))) =
    (true, v) :: pair_up (latched_from false (bus_bytes rest)).
Proof.
  intros Hv.
  assert (Ht : trace (sendData v) this =
            frame_write this (Z.lor (high_nibble v) 0x01) ++
            frame_write this (Z.lor (high_nibble (Z.shiftl v 4)) 0x01)).
  { unfold trace. pose proof (sendData_run this v) as Hrun.
    unfold run in Hrun. rewrite Hrun, !data_frame. reflexivity. }
  rewrite Ht, <- !app_assoc, !bus_bytes_app, !latched_from_frame.
  rewrite pair_up_frames, recombine_lor_rs, recombine_nibbles by exact Hv.
  unfold rs_bit at 1. rewrite Z.lor_spec, orb_true_r.
  reflexivity.
Qed.

Lemma received_command (this : Lcd) (v : Z) :
  is_uint8 v -> received (trace (sendCommand v) this) = [(false, v)].
Proof.
  intros Hv. unfold received, latched.
  rewrite <- (app_nil_r (trace (sendCommand v) this)).
  now rewrite received_from_command.
Qed.

Lemma commands_command (this : Lcd) (v : Z) :
  is_uint8 v -> commands (trace (sendCommand v) this) = [v].
Proof.
  intros Hv. unfold commands. now rewrite received_command.
Qed.

(** C7. For all 256 byte values [v], recombining the two frames emitted by
    [sendCommand v], the high nibble of the first as bits 7-4 and the high
    nibble of the second as bits 3-0, recovers [v]. *)
Theorem sendCommand_roundtrip (this : Lcd) (v : Z) :
  is_uint8 v ->
  exists f1 f2,
    trace (sendCommand v) this =
      frame_write this f1 ++ frame_write this f2 ++ [SleepMs 2] /\
    recombine f1 f2 = v /\
    received (trace (sendCommand v) this) = [(false, v)].
Proof.
  intros Hv.
  exists (high_nibble v), (high_nibble (Z.shiftl v 4)).
  split; [| split].
  - unfold trace. pose proof (sendCommand_run this v) as Hrun.
    unfold run in Hrun. rewrite Hrun, !command_frame. reflexivity.
  - now apply recombine_nibbles.
  - now apply received_command.
Qed.

Lemma sendCommand_roundtrip_witness :
  is_uint8 0xC5 /\ received (trace (sendCommand 0xC5) default_lcd) = [(false, 0xC5)].
Proof.
  assert (Hb : is_uint8 0xC5) by (unfold is_uint8; lia).
  split; [exact Hb|].
  destruct (sendCommand_roundtrip default_lcd 0xC5 Hb) as (f1 & f2 & _ & _ & Hr).
  exact Hr.
Defined.

(** The round trip checked on the list of all byte values. *)
Lemma sendCommand_roundtrip_all :
  forallb (fun v => match received (trace (sendCommand v) default_lcd) with
                    | [(false, w)] => w =? v
                    | _ => false
                    end) all_uint8 = true.
Proof. vm_compute. reflexivity. Qed.

(** ** init and clear *)

(** C4. [init] first waits 15 ms and then issues, in this order, exactly five
    commands through [sendCommand]: return-home [0x02], function-set [0x28],
    display-control [0x0C], entry-mode [0x06], clear-display [0x01], each as
    its two nibble frames and its 2 ms delay. *)
Theorem init_sequence (this : Lcd) :
  run init this =
    (tt, this,
     [SleepMs 15] ++
     trace (sendCommand 0x02) this ++
     trace (sendCommand 0x28) this ++
     trace (sendCommand 0x0C) this ++
     trace (sendCommand 0x06) this ++
     trace (sendCommand 0x01) this) /\
  received (trace init this) =
    [(false, 0x02); (false, 0x28); (false, 0x0C); (false, 0x06); (false, 0x01)] /\
  delays (trace init this) = [15; 2; 2; 2; 2; 2].
Proof.
  split; [reflexivity|].
  split; reflexivity.
Qed.

(** The bus traffic of one clear: the frames [0x00] and [0x10], that is the
    nibbles of [0x01] with register select low, then the delay. *)
Lemma clear_run (this : Lcd) :
  run clear this =
    (tt, this, frame_write this 0x00 ++ frame_write this 0x10 ++ [SleepMs 2]).
Proof. reflexivity. Qed.

(** C9. Two calls of [clear] in a row produce the same clear-command frame
    sequence twice (the two nibble frames of [0x01] with register select
    cleared, then the 2 ms delay), and leave the driver in the state it was
    in. *)
Theorem clear_twice (this : Lcd) :
  let once := frame_write this (high_nibble 0x01) ++
              frame_write this (high_nibble (Z.shiftl 0x01 4)) ++
              [SleepMs 2] in
  run clear this = (tt, this, once) /\
  run (clear ;; clear) this = (tt, this, once ++ once) /\
  rs_bit (high_nibble 0x01) = false /\
  rs_bit (high_nibble (Z.shiftl 0x01 4)) = false /\
  received (trace (clear ;; clear) this) = [(false, 0x01); (false, 0x01)].
Proof.
  cbv zeta. split; [apply clear_run|].
  split.
  - rewrite run_bind, clear_run, clear_run. reflexivity.
  - repeat split; reflexivity.
Qed.

(** ** print *)

Lemma print_nil_run (this : Lcd) (rest : list Z) :
  run (print (0 :: rest)) this = (tt, this, []).
Proof. reflexivity. Qed.

Lemma print_cons_run (this : Lcd) (c : Z) (s : list Z) :
  c <> 0 ->
  run (print (c :: s)) this =
    (let '(u, this1, t) := run (print s) this in
     (u, this1, trace (sendData (to_uint8 c)) this ++ t)).
Proof.
  intros Hc. cbn [print].
  destruct (Z.eqb_spec c 0) as [H0 | _]; [contradiction|].
  rewrite run_bind, sendData_unchanged. reflexivity.
Qed.

(** One [sendData] per character before the terminator, in order, and
    nothing of what follows it in memory. *)
Lemma print_run (this : Lcd) (s rest : list Z) :
  Forall (fun c => is_uint8 c /\ c <> 0) s ->
  run (print (cstr s ++ rest)) this =
    (tt, this, flat_map (fun c => trace (sendData c) this) s).
Proof.
  intros Hs. induction Hs as [| c s [Hc Hnz] _ IH].
  - apply print_nil_run.
  - unfold cstr in *. rewrite <- !app_comm_cons.
    rewrite print_cons_run by exact Hnz.
    rewrite IH, to_uint8_id by exact Hc.
    reflexivity.
Qed.

Lemma received_data_bytes (this : Lcd) (s : list Z) :
  Forall (fun c => is_uint8 c /\ c <> 0) s ->
  received (flat_map (fun c => trace (sendData c) this) s) =
    map (fun c => (true, c)) s.
Proof.
  unfold received, latched.
  intros Hs. induction Hs as [| c s [Hc _] _ IH].
  - reflexivity.
  - cbn [flat_map map].
    rewrite received_from_data by exact Hc.
    now rewrite IH.
Qed.

(** C6. For every character string [s], [print] makes one [sendData] call per
    character, in the order of the string, each with the byte value of the
    character; [print("AB")] emits exactly four data frames, the high then
    the low nibble of [0x41], then the high then the low nibble of [0x42]. *)
Theorem print_chars (this : Lcd) (s : list Z) :
  Forall (fun c => is_uint8 c /\ c <> 0) s ->
  run (print (cstr s)) this =
    (tt, this, flat_map (fun c => trace (sendData c) this) s) /\
  received (trace (print (cstr s)) this) = map (fun c => (true, c)) s /\
  trace (print (cstr (chars_of_string "AB"))) this =
    frame_write this (Z.lor (high_nibble 0x41) 0x01) ++
    frame_write this (Z.lor (high_nibble (Z.shiftl 0x41 4)) 0x01) ++
    frame_write this (Z.lor (high_nibble 0x42) 0x01) ++
    frame_write this (Z.lor (high_nibble (Z.shiftl 0x42 4)) 0x01).
Proof.
  intros Hs.
  assert (Hrun : run (print (cstr s)) this =
            (tt, this, flat_map (fun c => trace (sendData c) this) s)).
  { rewrite <- (app_nil_r (cstr s)). now apply print_run. }
  split; [exact Hrun|].
  split; [| reflexivity].
  unfold trace. unfold run in Hrun. rewrite Hrun. cbn [snd].
  now apply received_data_bytes.
Qed.

Lemma print_chars_witness :
  Forall (fun c => is_uint8 c /\ c <> 0) (chars_of_string "AB") /\
  received (trace (print (cstr (chars_of_string "AB"))) default_lcd) =
    [(true, 0x41); (true, 0x42)].
Proof.
  assert (Hs : Forall (fun c => is_uint8 c /\ c <> 0) (chars_of_string "AB")).
  { repeat constructor; unfold is_uint8; simpl; lia. }
  split; [exact Hs|].
  destruct (print_chars default_lcd (chars_of_string "AB") Hs) as (_ & Hr & _).
  exact Hr.
Defined.

(** C10. [print] of the empty string writes nothing to the bus, requests no
    delay and leaves the driver's state as it was. *)
Theorem print_empty (this : Lcd) :
  run (print (cstr (chars_of_string ""))) this = (tt, this, []) /\
  bus_bytes (trace (print (cstr (chars_of_string ""))) this) = [] /\
  delays (trace (print (cstr (chars_of_string ""))) this) = [] /\
  final (print (cstr (chars_of_string ""))) this = this.
Proof. repeat split. Qed.

(** ** setCursor *)

Lemma setCursor_row0 (column : Z) :
  setCursor 0 column = sendCommand ((0x08 + column) mod 256).
Proof.
  change (setCursor 0 column)
    with (sendCommand (to_uint8 (to_int (0x08 + column)))).
  now rewrite to_uint8_to_int.
Qed.

Lemma setCursor_row1 (column : Z) :
  setCursor 1 column = sendCommand ((0xC0 + column) mod 256).
Proof.
  change (setCursor 1 column)
    with (sendCommand (to_uint8 (to_int (0xC0 + column)))).
  now rewrite to_uint8_to_int.
Qed.

Lemma setCursor_other_rows (row column : Z) :
  row <> 0 -> row <> 1 -> setCursor row column = ret tt.
Proof.
  intros H0 H1. destruct row as [| p | p]; [contradiction | | reflexivity].
  destruct p; [reflexivity | reflexivity | contradiction].
Qed.

(** With the column past the end of a byte, the command is not the sum: row 1,
    column 64 issues [0x00] where the sum is [0x100]. *)
Lemma setCursor_sum_overflows :
  run (setCursor 1 64) default_lcd = run (sendCommand 0x00) default_lcd /\
  commands (trace (setCursor 1 64) default_lcd) = [0x00] /\
  commands (trace (setCursor 1 64) default_lcd) <> [0xC0 + 64].
Proof.
  split; [reflexivity|]. split; [reflexivity|].
  vm_compute. discriminate.
Qed.

(** C5, as the code has it. For every column [c], [setCursor(0, c)] issues
    exactly one command, the low eight bits of [0x08 + c], and
    [setCursor(1, c)] exactly one command, the low eight bits of [0xC0 + c];
    on every other row [setCursor] issues nothing and reports nothing. *)
Theorem setCursor_commands (this : Lcd) (c : Z) :
  (run (setCursor 0 c) this = run (sendCommand ((0x08 + c) mod 256)) this /\
   commands (trace (setCursor 0 c) this) = [(0x08 + c) mod 256]) /\
  (run (setCursor 1 c) this = run (sendCommand ((0xC0 + c) mod 256)) this /\
   commands (trace (setCursor 1 c) this) = [(0xC0 + c) mod 256]) /\
  (forall r, r <> 0 -> r <> 1 -> run (setCursor r c) this = (tt, this, [])).
Proof.
  split; [| split].
  - rewrite setCursor_row0. split; [reflexivity|].
    apply commands_command, to_uint8_range.
  - rewrite setCursor_row1. split; [reflexivity|].
    apply commands_command, to_uint8_range.
  - intros r H0 H1. now rewrite setCursor_other_rows.
Qed.

Lemma setCursor_commands_witness :
  (2 <> 0 /\ 2 <> 1) /\
  commands (trace (setCursor 0 3) default_lcd) = [0x0B] /\
  commands (trace (setCursor 1 3) default_lcd) = [0xC3] /\
  run (setCursor 2 3) default_lcd = (tt, default_lcd, []).
Proof.
  assert (H0 : 2 <> 0) by lia. assert (H1 : 2 <> 1) by lia.
  split; [split; assumption|].
  destruct (setCursor_commands default_lcd 3) as ((_ & Hr0) & (_ & Hr1) & Hr).
  split; [exact Hr0|]. split; [exact Hr1|].
  exact (Hr 2 H0 H1).
Defined.

(** Within a byte the command is the sum itself. *)
Lemma setCursor_in_range (this : Lcd) (c : Z) :
  (0 <= 0x08 + c < 256 -> commands (trace (setCursor 0 c) this) = [0x08 + c]) /\
  (0 <= 0xC0 + c < 256 -> commands (trace (setCursor 1 c) this) = [0xC0 + c]).
Proof.
  split; intros Hc.
  - rewrite setCursor_row0, Z.mod_small by exact Hc.
    now apply commands_command.
  - rewrite setCursor_row1, Z.mod_small by exact Hc.
    now apply commands_command.
Qed.

(** The command of row 0, column 0 is [0x08], and that of row 1, column 64 is
    [0x00]: neither has bit 7 set. *)
Lemma setCursor_bit7_clear :
  (commands (trace (setCursor 0 0) default_lcd) = [0x08] /\
   Z.testbit 0x08 7 = false) /\
  (commands (trace (setCursor 1 64) default_lcd) = [0x00] /\
   Z.testbit 0x00 7 = false) /\
  ~ (forall r c, r = 0 \/ r = 1 ->
       exists cmd, commands (trace (setCursor r c) default_lcd) = [cmd] /\
                   Z.testbit cmd 7 = true).
Proof.
  split; [split; reflexivity|]. split; [split; reflexivity|].
  intros H. destruct (H 1 64 (or_intror eq_refl)) as (cmd & Hc & Hb).
  vm_compute in Hc. injection Hc as <-. discriminate Hb.
Qed.

(** C8, as the code has it. On row 1, for every column [c] from 0 to 63, the
    one command byte that [setCursor] issues through [sendCommand] is
    [0xC0 + c], a set-DDRAM-address instruction: bit 7 is set. *)
Theorem setCursor_row1_ddram (this : Lcd) (c : Z) :
  0 <= c <= 63 ->
  run (setCursor 1 c) this = run (sendCommand (0xC0 + c)) this /\
  commands (trace (setCursor 1 c) this) = [0xC0 + c] /\
  Z.testbit (0xC0 + c) 7 = true.
Proof.
  intros Hc.
  assert (Hb : is_uint8 (0xC0 + c)) by (unfold is_uint8; lia).
  rewrite setCursor_row1, Z.mod_small by exact Hb.
  split; [reflexivity|].
  split; [now apply commands_command|].
  apply Z.testbit_true; [lia|].
  change (2 ^ 7) with 128.
  replace ((192 + c) / 128) with 1
    by (apply Z.div_unique with (r := 64 + c); lia).
  reflexivity.
Qed.

Lemma setCursor_row1_ddram_witness :
  0 <= 0 <= 63 /\
  commands (trace (setCursor 1 0) default_lcd) = [0xC0] /\
  Z.testbit 0xC0 7 = true.
Proof.
  assert (Hc : 0 <= 0 <= 63) by lia.
  split; [exact Hc|].
  destruct (setCursor_row1_ddram default_lcd 0 Hc) as (_ & Hcmd & Hbit).
  split; [exact Hcmd | exact Hbit].
Defined.

(** ** Traces of sequences *)

Lemma trace_bind {A B} (m : Driver A) (k : A -> Driver B) (this : Lcd) :
  trace (bind m k) this =
    trace m this ++ trace (k (fst (fst (m this)))) (final m this).
Proof.
  unfold trace, final, bind.
  destruct (m this) as [[a this1] t1]. cbn [fst snd].
  destruct (k a this1) as [[b this2] t2]. reflexivity.
Qed.

Lemma sendCommand_trace (this : Lcd) (v : Z) :
  trace (sendCommand v) this =
    frame_write this (high_nibble v) ++
    frame_write this (high_nibble (Z.shiftl v 4)) ++ [SleepMs 2].
Proof.
  unfold trace. pose proof (sendCommand_run this v) as Hrun.
  unfold run in Hrun. rewrite Hrun, !command_frame. reflexivity.
Qed.

Lemma sendData_trace (this : Lcd) (v : Z) :
  trace (sendData v) this =
    frame_write this (Z.lor (high_nibble v) 0x01) ++
    frame_write this (Z.lor (high_nibble (Z.shiftl v 4)) 0x01).
Proof.
  unfold trace. pose proof (sendData_run this v) as Hrun.
  unfold run in Hrun. rewrite Hrun, !data_frame. reflexivity.
Qed.

Lemma until_nul_app_zero (s rest : list Z) :
  until_nul (s ++ 0 :: rest) = until_nul s.
Proof.
  induction s as [| c s IH]; [reflexivity|].
  cbn [app until_nul]. destruct (c =? 0); [reflexivity | now rewrite IH].
Qed.

(** [print] on any array: one [sendData] per character before the first
    zero. *)
Lemma print_run_any (this : Lcd) (s : list Z) :
  run (print s) this =
    (tt, this, flat_map (fun c => trace (sendData (c mod 256)) this) (until_nul s)).
Proof.
  induction s as [| c s IH]; [reflexivity|].
  destruct (Z.eqb_spec c 0) as [-> | Hc]; [reflexivity|].
  rewrite print_cons_run, IH by exact Hc.
  cbn [until_nul]. destruct (Z.eqb_spec c 0) as [H0 | _]; [contradiction|].
  reflexivity.
Qed.

Section Transfers.

Variable this : Lcd.

Lemma transfers_app (t1 t2 : list event) (l1 l2 : list (bool * Z)) :
  transfers this t1 l1 -> transfers this t2 l2 ->
  transfers this (t1 ++ t2) (l1 ++ l2).
Proof.
  intros H1 H2. induction H1 as [| v t l Hv _ IH | v t l Hv _ IH | ms t l _ IH].
  - exact H2.
  - rewrite <- app_assoc. cbn [app]. now apply transfers_command.
  - rewrite <- app_assoc. cbn [app]. now apply transfers_data.
  - cbn [app]. now apply transfers_sleep.
Qed.

Lemma transfers_one_command (v : Z) :
  is_uint8 v -> transfers this (trace (sendCommand v) this) [(false, v)].
Proof.
  intros Hv. rewrite <- (app_nil_r (trace (sendCommand v) this)).
  apply transfers_command; [exact Hv | constructor].
Qed.

Lemma transfers_one_data (v : Z) :
  is_uint8 v -> transfers this (trace (sendData v) this) [(true, v)].
Proof.
  intros Hv. rewrite <- (app_nil_r (trace (sendData v) this)).
  apply transfers_data; [exact Hv | constructor].
Qed.

Lemma transfers_data_bytes (s : list Z) :
  transfers this (flat_map (fun c => trace (sendData (c mod 256)) this) s)
            (map (fun c => (true, c mod 256)) s).
Proof.
  induction s as [| c s IH]; [constructor|].
  cbn [flat_map map]. apply transfers_data; [apply to_uint8_range | exact IH].
Qed.

(** The controller receives the bytes of the transfers, whatever the level
    of the enable line before. *)
Lemma transfers_received (t : list event) (l : list (bool * Z)) :
  transfers this t l ->
  forall e, pair_up (latched_from e (bus_bytes t)) = l.
Proof.
  induction 1 as [| v t l Hv _ IH | v t l Hv _ IH | ms t l _ IH]; intros e.
  - reflexivity.
  - rewrite received_from_command by exact Hv. now rewrite IH.
  - rewrite received_from_data by exact Hv. now rewrite IH.
  - rewrite latched_from_sleep. apply IH.
Qed.

End Transfers.

(** ** The bytes on the bus *)

Lemma low_nibble_to_uint8 (x : Z) : Z.land (to_uint8 x) 0x0F = Z.land x 0x0F.
Proof.
  unfold to_uint8. change 256 with (2 ^ 8). rewrite <- Z.land_ones by lia.
  rewrite <- Z.land_assoc. reflexivity.
Qed.

Lemma low_nibble_command_frame (x : Z) : Z.land (high_nibble x) 0x0F = 0.
Proof.
  unfold high_nibble. rewrite <- Z.land_assoc.
  change (Z.land 240 15) with 0. apply Z.land_0_r.
Qed.

Lemma low_nibble_data_frame (x : Z) :
  Z.land (Z.lor (high_nibble x) 0x01) 0x0F = 1.
Proof.
  rewrite Z.land_lor_distr_l, low_nibble_command_frame. reflexivity.
Qed.

Lemma frame_write_driver_write (this : Lcd) (f : Z) :
  Z.land f 0x0F = 0 \/ Z.land f 0x0F = 1 ->
  Forall (driver_write this) (frame_write this f).
Proof.
  intros Hf.
  assert (Hen : Z.land (to_uint8 (Z.lor (Z.lor f 0x08) 0x04)) 0x0F =
                Z.lor (Z.lor (Z.land f 0x0F) 0x08) 0x04).
  { rewrite low_nibble_to_uint8, !Z.land_lor_distr_l. reflexivity. }
  assert (Hdis : Z.land (to_uint8 (Z.lor (Z.land f (Z.lnot 0x04)) 0x08)) 0x0F =
                 Z.lor (Z.land (Z.land f 0x0F) 0x0B) 0x08).
  { rewrite low_nibble_to_uint8, Z.land_lor_distr_l, <- !Z.land_assoc.
    reflexivity. }
  change (frame_write this f) with
    [I2cWrite (peripheralAddr this)
       [to_uint8 (Z.lor (Z.lor f 0x08) 0x04)] true;
     I2cWrite (peripheralAddr this)
       [to_uint8 (Z.lor (Z.land f (Z.lnot 0x04)) 0x08)] true].
  repeat constructor.
  - eexists. split; [reflexivity|]. split; [apply to_uint8_range|].
    rewrite Hen. destruct Hf as [-> | ->]; cbn; tauto.
  - eexists. split; [reflexivity|]. split; [apply to_uint8_range|].
    rewrite Hdis. destruct Hf as [-> | ->]; cbn; tauto.
Qed.

Lemma transfers_driver_write (this : Lcd) (t : list event) (l : list (bool * Z)) :
  transfers this t l -> Forall (driver_write this) t.
Proof.
  induction 1 as [| v t l _ _ IH | v t l _ _ IH | ms t l _ IH].
  - constructor.
  - rewrite sendCommand_trace.
    apply Forall_app; split; [| exact IH].
    apply Forall_app; split; [| apply Forall_app; split].
    + apply frame_write_driver_write. left. apply low_nibble_command_frame.
    + apply frame_write_driver_write. left. apply low_nibble_command_frame.
    + constructor; [exact I | constructor].
  - rewrite sendData_trace.
    apply Forall_app; split; [| exact IH].
    apply Forall_app; split.
    + apply frame_write_driver_write. right. apply low_nibble_data_frame.
    + apply frame_write_driver_write. right. apply low_nibble_data_frame.
  - constructor; [exact I | exact IH].
Qed.




(** ** Calls from outside: what each delivers *)

Lemma exec_run (c : api_call) (this : Lcd) :
  run (exec c) this = (tt, this, trace (exec c) this).
Proof.
  destruct c as [| s | row column | | val | val]; try reflexivity.
  - cbn [exec]. unfold trace.
    change (print s this) with (run (print s) this).
    now rewrite print_run_any.
  - cbn [exec]. destruct row as [| p | p]; try reflexivity.
    destruct p; reflexivity.
Qed.

Lemma init_trace (this : Lcd) :
  trace init this =
    SleepMs 15 ::
    trace (sendCommand 0x02) this ++ trace (sendCommand 0x28) this ++
    trace (sendCommand 0x0C) this ++ trace (sendCommand 0x06) this ++
    trace (sendCommand 0x01) this ++ [].
Proof. reflexivity. Qed.

Lemma init_transfers (this : Lcd) :
  transfers this (trace init this) (delivers CallInit).
Proof.
  rewrite init_trace. apply transfers_sleep.
  repeat (apply transfers_command; [unfold is_uint8; lia|]).
  constructor.
Qed.

Lemma setCursor_transfers (this : Lcd) (row column : Z) :
  transfers this (trace (setCursor row column) this)
            (delivers (CallSetCursor row column)).
Proof.
  destruct row as [| p | p].
  - rewrite setCursor_row0. apply transfers_one_command, to_uint8_range.
  - destruct p; try constructor.
    rewrite setCursor_row1. apply transfers_one_command, to_uint8_range.
  - constructor.
Qed.

Lemma exec_transfers (c : api_call) (this : Lcd) :
  transfers this (trace (exec c) this) (delivers c).
Proof.
  destruct c as [| s | row column | | val | val]; cbn [exec].
  - apply init_transfers.
  - unfold trace. change (print s this) with (run (print s) this).
    rewrite print_run_any. apply transfers_data_bytes.
  - apply setCursor_transfers.
  - apply (transfers_one_command this 0x01). unfold is_uint8. lia.
  - apply transfers_one_command, to_uint8_range.
  - apply transfers_one_data, to_uint8_range.
Qed.

Lemma exec_all_run (cs : list api_call) (this : Lcd) :
  run (exec_all cs) this =
    (tt, this, flat_map (fun c => trace (exec c) this) cs).
Proof.
  induction cs as [| c cs IH]; [reflexivity|].
  cbn [exec_all flat_map]. now rewrite run_bind, exec_run, IH.
Qed.

Lemma exec_all_trace (cs : list api_call) (this : Lcd) :
  trace (exec_all cs) this = flat_map (fun c => trace (exec c) this) cs.
Proof.
  unfold trace. change (exec_all cs this) with (run (exec_all cs) this).
  now rewrite exec_all_run.
Qed.

Lemma exec_all_transfers (cs : list api_call) (this : Lcd) :
  transfers this (trace (exec_all cs) this) (flat_map delivers cs).
Proof.
  rewrite exec_all_trace.
  induction cs as [| c cs IH]; [constructor|].
  cbn [flat_map]. apply transfers_app; [apply exec_transfers | exact IH].
Qed.

(** ** Properties of the methods beyond single commands *)

(** X1. For every byte [v], the two frames of [sendData v] recombine to [v],
    and the controller receives [v] once, for its data register. *)
Theorem sendData_roundtrip (this : Lcd) (v : Z) :
  is_uint8 v ->
  exists f1 f2,
    trace (sendData v) this = frame_write this f1 ++ frame_write this f2 /\
    recombine f1 f2 = v /\
    received (trace (sendData v) this) = [(true, v)].
Proof.
  intros Hv.
  exists (Z.lor (high_nibble v) 0x01), (Z.lor (high_nibble (Z.shiftl v 4)) 0x01).
  split; [apply sendData_trace|].
  split.
  - rewrite recombine_lor_rs. now apply recombine_nibbles.
  - unfold received, latched.
    apply (transfers_received this). now apply transfers_one_data.
Qed.

Lemma sendData_roundtrip_witness :
  is_uint8 0xE9 /\ received (trace (sendData 0xE9) default_lcd) = [(true, 0xE9)].
Proof.
  assert (Hb : is_uint8 0xE9) by (unfold is_uint8; lia).
  split; [exact Hb|].
  destruct (sendData_roundtrip default_lcd 0xE9 Hb) as (f1 & f2 & _ & _ & Hr).
  exact Hr.
Defined.

(** X2. On any [char] array, [print] sends the characters before the first
    zero, each as its byte value, and nothing else: what follows the first
    zero in memory has no effect. *)
Theorem print_stops_at_zero (this : Lcd) (s rest : list Z) :
  run (print s) this =
    (tt, this,
     flat_map (fun c => trace (sendData (c mod 256)) this) (until_nul s)) /\
  received (trace (print s) this) =
    map (fun c => (true, c mod 256)) (until_nul s) /\
  run (print (s ++ 0 :: rest)) this = run (print s) this.
Proof.
  split; [apply print_run_any|].
  split.
  - unfold received, latched. apply (transfers_received this).
    apply (exec_transfers (CallPrint s)).
  - rewrite !print_run_any. now rewrite until_nul_app_zero.
Qed.


(** ** Any sequence of calls *)

(** X4. Whatever methods a caller calls, with whatever arguments, the
    controller receives the bytes each call delivers, in the order of the
    calls, whatever the level of the enable line was before; and the object
    is left as it was. *)
Theorem calls_deliver (this : Lcd) (cs : list api_call) :
  run (exec_all cs) this =
    (tt, this, flat_map (fun c => trace (exec c) this) cs) /\
  received (trace (exec_all cs) this) = flat_map delivers cs /\
  forall e,
    pair_up (latched_from e (bus_bytes (trace (exec_all cs) this))) =
      flat_map delivers cs.
Proof.
  split; [apply exec_all_run|].
  pose proof (transfers_received this _ _ (exec_all_transfers cs this)) as Hr.
  split; [apply Hr | exact Hr].
Qed.

(** X5. In any sequence of calls every bus write carries one byte, goes to
    the address of the object with the bus held open, and has in its low
    nibble the backlight bit set and bit 1 clear. *)
Theorem calls_write_discipline (this : Lcd) (cs : list api_call) :
  Forall (driver_write this) (trace (exec_all cs) this).
Proof.
  apply transfers_driver_write with (l := flat_map delivers cs).
  apply exec_all_transfers.
Qed.


(** ** More on setCursor, sendData and sendCommand *)

(** X7. [setCursor] sees the column modulo 256: columns that differ by a
    multiple of 256 give the same run, on every row. *)
Theorem setCursor_column_period (this : Lcd) (row column k : Z) :
  run (setCursor row (column + 256 * k)) this = run (setCursor row column) this.
Proof.
  assert (Hmod : forall base,
             (base + (column + 256 * k)) mod 256 = (base + column) mod 256).
  { intros base.
    replace (base + (column + 256 * k)) with (base + column + k * 256) by lia.
    apply Z.mod_add. lia. }
  destruct row as [| p | p]; [| destruct p |]; try reflexivity.
  - now rewrite !setCursor_row0, Hmod.
  - now rewrite !setCursor_row1, Hmod.
Qed.

(** X8. On row 0, for every column [c] from 0 to 119, the one command that
    [setCursor] issues is [0x08 + c], and its bit 7 is clear. *)
Theorem setCursor_row0_bit7 (this : Lcd) (c : Z) :
  0 <= c <= 119 ->
  run (setCursor 0 c) this = run (sendCommand (0x08 + c)) this /\
  commands (trace (setCursor 0 c) this) = [0x08 + c] /\
  Z.testbit (0x08 + c) 7 = false.
Proof.
  intros Hc.
  assert (Hb : is_uint8 (0x08 + c)) by (unfold is_uint8; lia).
  rewrite setCursor_row0, Z.mod_small by exact Hb.
  split; [reflexivity|].
  split; [now apply commands_command|].
  apply Z.testbit_false; [lia|].
  change (2 ^ 7) with 128. rewrite Z.div_small by lia. reflexivity.
Qed.

Lemma setCursor_row0_bit7_witness :
  0 <= 0 <= 119 /\
  commands (trace (setCursor 0 0) default_lcd) = [0x08] /\
  Z.testbit 0x08 7 = false.
Proof.
  assert (Hc : 0 <= 0 <= 119) by lia.
  split; [exact Hc|].
  destruct (setCursor_row0_bit7 default_lcd 0 Hc) as (_ & Hcmd & Hbit).
  split; [exact Hcmd | exact Hbit].
Defined.

(** X9. For every byte [v], [sendData v] puts on the bus the four bytes of
    [sendCommand v] with the register-select bit set. *)
Theorem sendData_bus_bytes (this : Lcd) (v : Z) :
  is_uint8 v ->
  bus_bytes (trace (sendData v) this) =
    map (fun b => Z.lor b 0x01) (bus_bytes (trace (sendCommand v) this)).
Proof.
  intros Hv.
  pose (same := fun v =>
          if list_eq_dec Z.eq_dec
               (bus_bytes (trace (sendData v) this))
               (map (fun b => Z.lor b 0x01)
                    (bus_bytes (trace (sendCommand v) this)))
          then true else false).
  assert (Hall : forallb same all_uint8 = true) by (vm_compute; reflexivity).
  pose proof (uint8_forall same Hall v Hv) as Hsame.
  unfold same in Hsame.
  destruct (list_eq_dec Z.eq_dec _ _) as [Heq | _]; [exact Heq | discriminate].
Qed.

Lemma sendData_bus_bytes_witness :
  is_uint8 0x41 /\
  bus_bytes (trace (sendData 0x41) default_lcd) = [0x4D; 0x49; 0x1D; 0x19] /\
  bus_bytes (trace (sendCommand 0x41) default_lcd) = [0x4C; 0x48; 0x1C; 0x18].
Proof.
  assert (Hb : is_uint8 0x41) by (unfold is_uint8; lia).
  split; [exact Hb|].
  pose proof (sendData_bus_bytes default_lcd 0x41 Hb) as H.
  split; [exact H | reflexivity].
Defined.

(** ** The constructor and main *)

Lemma driver_events_app (t1 t2 : list sdk_call) :
  driver_events (t1 ++ t2) = driver_events t1 ++ driver_events t2.
Proof. unfold driver_events. apply flat_map_app. Qed.

Lemma driver_events_map (t : list event) :
  driver_events (map DriverEvent t) = t.
Proof.
  induction t as [| e t IH]; [reflexivity|].
  unfold driver_events in *. cbn [map flat_map app]. now rewrite IH.
Qed.

Lemma Lcd_ctor_run (SDA_PIN SCL_PIN addr : Z) :
  Lcd_ctor SDA_PIN SCL_PIN addr =
    (mkLcd addr,
     [I2cInit 1000000;
      GpioSetFunction SDA_PIN GPIO_FUNC_I2C;
      GpioSetFunction SCL_PIN GPIO_FUNC_I2C;
      GpioPullUp SDA_PIN;
      GpioPullUp SCL_PIN] ++ map DriverEvent (trace init (mkLcd addr))).
Proof. reflexivity. Qed.

(** X10. The constructor stores [addr], sets the bus up (clock, both pins to
    the I2C function, both pull-ups) before anything goes on the bus, and
    then initialises the controller: every bus write goes to [addr], and the
    controller receives the five commands of [init]. *)
Theorem Lcd_ctor_initialises (SDA_PIN SCL_PIN addr : Z) :
  let this := fst (Lcd_ctor SDA_PIN SCL_PIN addr) in
  let t := snd (Lcd_ctor SDA_PIN SCL_PIN addr) in
  peripheralAddr this = addr /\
  firstn 5 t = [I2cInit 1000000;
                GpioSetFunction SDA_PIN GPIO_FUNC_I2C;
                GpioSetFunction SCL_PIN GPIO_FUNC_I2C;
                GpioPullUp SDA_PIN;
                GpioPullUp SCL_PIN] /\
  skipn 5 t = map DriverEvent (driver_events t) /\
  Forall (driver_write (mkLcd addr)) (driver_events t) /\
  received (driver_events t) = delivers CallInit.
Proof.
  cbv zeta. rewrite Lcd_ctor_run. cbn [fst snd].
  rewrite driver_events_app, driver_events_map.
  split; [reflexivity|]. split; [reflexivity|]. split; [reflexivity|].
  cbn [driver_events flat_map app].
  split.
  - apply transfers_driver_write with (l := delivers CallInit).
    apply init_transfers.
  - apply (transfers_received (mkLcd addr)), init_transfers.
Qed.

Lemma loop_run (body : Driver unit) (this : Lcd) (n : nat) :
  run body this = (tt, this, trace body this) ->
  run (loop n body) this = (tt, this, List.concat (repeat (trace body this) n)).
Proof.
  intros Hbody. induction n as [| n IH]; [reflexivity|].
  cbn [loop repeat List.concat]. now rewrite run_bind, Hbody, IH.
Qed.

Lemma main_loop_body_trace (this : Lcd) :
  trace main_loop_body this =
    trace (print (cstr (chars_of_string "  Hello World!"))) this ++
    SleepMs 1000 ::
    trace (setCursor 1 0) this ++
    trace (print (cstr (chars_of_string "Rasperry Pi Pico"))) this ++
    SleepMs 2000 ::
    trace init this.
Proof. reflexivity. Qed.

Lemma main_loop_body_transfers (this : Lcd) :
  transfers this (trace main_loop_body this)
    (map (fun c => (true, c)) (chars_of_string "  Hello World!") ++
     [(false, 0xC0)] ++
     map (fun c => (true, c)) (chars_of_string "Rasperry Pi Pico") ++
     delivers CallInit).
Proof.
  rewrite main_loop_body_trace.
  apply transfers_app;
    [exact (exec_transfers
              (CallPrint (cstr (chars_of_string "  Hello World!"))) this)|].
  apply transfers_sleep.
  apply transfers_app; [exact (setCursor_transfers this 1 0)|].
  apply transfers_app;
    [exact (exec_transfers
              (CallPrint (cstr (chars_of_string "Rasperry Pi Pico"))) this)|].
  apply transfers_sleep. apply init_transfers.
Qed.

Lemma transfers_repeat (this : Lcd) (t : list event) (l : list (bool * Z))
    (n : nat) :
  transfers this t l ->
  transfers this (List.concat (repeat t n)) (List.concat (repeat l n)).
Proof.
  intros Ht. induction n as [| n IH]; [constructor|].
  cbn [repeat List.concat]. now apply transfers_app.
Qed.

(** X11. When the [n]-th turn of the loop of [main] ends, the controller has
    received the five commands of [init] from the constructor and then, [n]
    times over, the text of the first line, the cursor command [0xC0], the
    text of the second line and the five commands of [init] again; every
    bus write went to address [0x27]. *)
Theorem main_upto_received (SDA_PIN SCL_PIN : Z) (n : nat) :
  let t := driver_events (main_upto SDA_PIN SCL_PIN n) in
  received t =
    delivers CallInit ++
    List.concat (repeat
              (map (fun c => (true, c)) (chars_of_string "  Hello World!") ++
               [(false, 0xC0)] ++
               map (fun c => (true, c)) (chars_of_string "Rasperry Pi Pico") ++
               delivers CallInit) n) /\
  Forall (driver_write (mkLcd 0x27)) t.
Proof.
  cbv zeta. unfold main_upto. rewrite Lcd_ctor_run.
  change (to_uint8 39) with 39.
  rewrite !driver_events_app, driver_events_map.
  cbn [driver_events flat_map app]. rewrite driver_events_map.
  assert (Hloop : trace (loop n main_loop_body) (mkLcd 39) =
                  List.concat (repeat (trace main_loop_body (mkLcd 39)) n)).
  { unfold trace at 1.
    change (loop n main_loop_body (mkLcd 39))
      with (run (loop n main_loop_body) (mkLcd 39)).
    now rewrite loop_run. }
  rewrite Hloop.
  assert (Ht : transfers (mkLcd 39)
                 (trace init (mkLcd 39) ++
                  List.concat (repeat (trace main_loop_body (mkLcd 39)) n))
                 (delivers CallInit ++
                  List.concat (repeat
                    (map (fun c => (true, c)) (chars_of_string "  Hello World!") ++
                     [(false, 0xC0)] ++
                     map (fun c => (true, c))
                         (chars_of_string "Rasperry Pi Pico") ++
                     delivers CallInit) n))).
  { apply transfers_app; [apply init_transfers|].
    apply transfers_repeat, main_loop_body_transfers. }
  split.
  - apply (transfers_received (mkLcd 39)). exact Ht.
  - apply transfers_driver_write in Ht. exact Ht.
Qed.

(** ** Time spent sleeping *)

Lemma total_delay_app (t1 t2 : list event) :
  total_delay (t1 ++ t2) = total_delay t1 + total_delay t2.
Proof.
  unfold total_delay. rewrite delays_app.
  induction (delays t1) as [| d l IH]; [reflexivity|].
  cbn [app fold_right]. rewrite IH. lia.
Qed.

Lemma total_delay_command (this : Lcd) (v : Z) :
  total_delay (trace (sendCommand v) this) = 2.
Proof. reflexivity. Qed.

Lemma total_delay_data (this : Lcd) (v : Z) :
  total_delay (trace (sendData v) this) = 0.
Proof. reflexivity. Qed.

Lemma instructions_app (l1 l2 : list (bool * Z)) :
  instructions (l1 ++ l2) = instructions l1 ++ instructions l2.
Proof. unfold instructions. now rewrite filter_app, map_app. Qed.

Lemma instructions_data (f : Z -> Z) (s : list Z) :
  instructions (map (fun c => (true, f c)) s) = [].
Proof. induction s as [| c s IH]; [reflexivity | exact IH]. Qed.

Lemma total_delay_exec (c : api_call) (this : Lcd) :
  total_delay (trace (exec c) this) =
    2 * Z.of_nat (List.length (instructions (delivers c))) +
    (if is_init c then 15 else 0).
Proof.
  destruct c as [| s | row column | | val | val]; try reflexivity.
  - cbn [exec delivers is_init]. rewrite instructions_data.
    unfold trace. change (print s this) with (run (print s) this).
    rewrite print_run_any. cbn [snd].
    induction (until_nul s) as [| c l IH]; [reflexivity|].
    cbn [flat_map]. now rewrite total_delay_app, IH, total_delay_data.
  - cbn [exec]. destruct row as [| p | p]; try reflexivity.
    destruct p; reflexivity.
Qed.

(** X12. A sequence of calls sleeps 2 ms for each instruction it delivers to
    the controller and 15 ms more for each [init]; data bytes cost no
    sleep. *)
Theorem calls_total_delay (this : Lcd) (cs : list api_call) :
  total_delay (trace (exec_all cs) this) =
    2 * Z.of_nat (List.length (commands (trace (exec_all cs) this))) +
    15 * Z.of_nat (List.length (filter is_init cs)).
Proof.
  assert (Hc : commands (trace (exec_all cs) this) =
               instructions (flat_map delivers cs)).
  { unfold commands, instructions, received, latched.
    now rewrite (transfers_received this _ _ (exec_all_transfers cs this)). }
  rewrite Hc, exec_all_trace. clear Hc.
  induction cs as [| c cs IH]; [reflexivity|].
  cbn [flat_map filter].
  rewrite total_delay_app, IH, total_delay_exec, instructions_app.
  rewrite List.length_app. destruct (is_init c); cbn [List.length]; lia.
Qed.
